(** * Habitability scorer: [calculate_planetary_parameters] of [backend/server.py]

    The scorer is a pure Python function of ten scalars.  It validates them
    in a fixed order, computes six factors, the reciprocal [C] of their
    product, the score [100 * C * product] and returns a dict.

    The function is embedded once, over an interface [Scalar] of the numeric
    operations it uses (Python's duck typing), with exceptions as an error
    monad.  Two instances are given:
    - [Binary64]: Python's [float], on Rocq's primitive binary64 numbers;
      this is what the interpreter runs, and it evaluates inside Rocq;
    - [Exact]: the real numbers, the reading under which the formula is
      "algebraic" (no rounding, no overflow, no underflow).
    The ten inputs are numbers of one kind; a Python int among them, like
    the int constants of the source, is read as the float of the same value,
    which is how Python's mixed arithmetic treats it next to [math.exp]. *)

From Stdlib Require Import ZArith QArith Qround Reals Zfloor Lra Lia Bool List String.
From Stdlib Require Import Floats Uint63.
Import ListNotations.

Set Warnings "-inexact-float".

(** ** Exceptions and results *)

(** The two exceptions the function can raise: the [ValueError] of a failed
    validation, with its message, and the [ZeroDivisionError] of [/]. *)
Inductive exn : Type :=
| ValueError (msg : string)
| ZeroDivisionError.

Inductive result (A : Type) : Type :=
| Return (a : A)
| Raise (e : exn).

Arguments Return {A} a.
Arguments Raise {A} e.

Definition bind {A B : Type} (r : result A) (k : A -> result B) : result B :=
  match r with
  | Return a => k a
  | Raise e => Raise e
  end.

Declare Scope py_scope.
Delimit Scope py_scope with py.

Notation "x <- e ;; k" := (bind e (fun x => k))
  (at level 61, e at next level, right associativity) : py_scope.

(** ** The numeric interface *)

(** What the function asks of its numbers.  [lit q] is the value of the
    source literal written [q]; [num_quot] is the quotient of [/] once the
    divisor is known to be non-zero; [math_exp] is [math.exp] (on the
    arguments of this function, which are never positive, it does not raise);
    [num_round x n] is the builtin [round(x, n)] for [n >= 0]. *)
Class Scalar (num : Type) : Type := {
  lit : Q -> num;
  num_le : num -> num -> bool;
  num_lt : num -> num -> bool;
  num_eq : num -> num -> bool;
  num_add : num -> num -> num;
  num_sub : num -> num -> num;
  num_mul : num -> num -> num;
  num_quot : num -> num -> num;
  num_neg : num -> num;
  num_abs : num -> num;
  math_exp : num -> num;
  num_round : num -> nat -> num
}.

Arguments lit {num Scalar} q%_Q.

Infix "<=" := num_le : py_scope.
Infix "<" := num_lt : py_scope.
Infix "==" := num_eq (at level 70, no associativity) : py_scope.
Infix "+" := num_add : py_scope.
Infix "-" := num_sub : py_scope.
Infix "*" := num_mul : py_scope.
Notation "- x" := (num_neg x) : py_scope.

(** ** The scorer *)

Section Scorer.

Context {num : Type} {S : Scalar num}.

Local Open Scope string_scope.
Local Open Scope py_scope.

(** [a / b]: Python raises [ZeroDivisionError] when [b == 0], for ints and
    floats alike. *)
Definition truediv (a b : num) : result num :=
  if b == lit 0 then Raise ZeroDivisionError else Return (num_quot a b).

(** [max(a, b)] and [min(a, b)] of two arguments: the first argument is kept
    unless the second is strictly greater (smaller). *)
Definition py_max (a b : num) : num := if a < b then b else a.
Definition py_min (a b : num) : num := if b < a then b else a.

(** [x in xs], by [==]. *)
Definition member (x : num) (xs : list num) : bool :=
  existsb (fun y => x == y) xs.

(** A dict value of the result: a number or a string. *)
Inductive value : Type :=
| Num (x : num)
| Str (s : string).

(** The returned dict, in insertion order. *)
Definition report : Type := list (string * value).

(** The function, line by line.  [10**-5] of line 41 is the float [1e-05],
    written here as the literal [0.00001]. *)
Definition calculate_planetary_parameters (D M T P W B θ R G X : num)
  : result report :=
  (* Validate input ranges *)
  if negb ((lit 0.3 <= D) && (D <= lit 30)) then
    Raise (ValueError "Distance from Sun (D) must be between 0.3 and 30 AU.")
  else if negb ((lit 0.1 <= M) && (M <= lit 300)) then
    Raise (ValueError "Planetary Mass (M) must be between 0.1 and 300 Earth masses.")
  else if negb ((lit 50 <= T) && (T <= lit 900)) then
    Raise (ValueError "Surface Temperature (T) must be between 50 and 900 K.")
  else if negb ((lit 0.00001 <= P) && (P <= lit 100)) then
    Raise (ValueError "Atmospheric Pressure (P) must be between 10^-5 and 100 bars.")
  else if negb (member W [lit 0; lit 1]) then
    Raise (ValueError "Water Presence (W) must be either 0 (No) or 1 (Yes).")
  else if negb ((lit 0 <= B) && (B <= lit 15)) then
    Raise (ValueError "Magnetic Field Strength (B) must be between 0 and 15 G.")
  else if negb ((lit 0 <= θ) && (θ <= lit 98)) then
    Raise (ValueError "Axial Tilt (θ) must be between 0 and 98 degrees.")
  else if negb ((lit 1 <= R) && (R <= lit 5832)) then
    Raise (ValueError "Rotation Speed (R) must be between 1 and 5832 hours.")
  else if negb ((lit 0 <= G) && (G <= lit 1)) then
    Raise (ValueError "Geological Activity (G) must be between 0 and 1.")
  else if negb ((lit 0.01 <= X) && (X <= lit 1000)) then
    Raise (ValueError "Radiation Levels (X) must be between 0.01 and 1000 Sv.")
  else
  (* Reference Earth values *)
  let '(T_E, P_E, W_E, B_E, G_E, X_E) := (lit 288, lit 1, lit 1, lit 0.5, lit 1, lit 0.01) in
  (* Habitability factors *)
  q <- truediv (- num_abs (T - T_E)) T_E ;;
  let f_T := py_min (lit 1) (py_max (lit 0) (math_exp q)) in
  f_P <- truediv P (lit 1 + P) ;;
  let f_W := W in
  f_B <- truediv B (B + lit 1) ;;
  let f_G := G in
  let f_X := math_exp (- X) in
  (* Constant scaling factor *)
  C <- truediv (lit 1) (f_T * f_P * f_W * f_B * f_G * f_X) ;;
  (* Probability of life *)
  let P_L := lit 100 * C * f_T * f_P * f_W * f_B * f_G * f_X in
  Return
    [ ("Distance from Sun (AU)", Num D);
      ("Planetary Mass (Earth Masses)", Num M);
      ("Surface Temperature (K)", Num T);
      ("Atmospheric Pressure (bars)", Num P);
      ("Water Presence", Str (if W == lit 1 then "Yes" else "No"));
      ("Magnetic Field Strength (G)", Num B);
      ("Axial Tilt (°)", Num θ);
      ("Rotation Speed (hours)", Num R);
      ("Geological Activity", Num G);
      ("Radiation Levels (Sv)", Num X);
      ("Habitability Probability (0-100)", Num (num_round P_L 2)) ].

End Scorer.

Arguments value num : clear implicits.
Arguments report num : clear implicits.

(** ** Python floats *)

Module F64.

Local Open Scope float_scope.

(** A Python int as a float; exact below [2^53]. *)
Definition of_Z (z : Z) : float :=
  match z with
  | Z0 => 0
  | Zpos _ => of_uint63 (Uint63.of_Z z)
  | Zneg p => - of_uint63 (Uint63.of_Z (Zpos p))
  end.

(** A decimal literal [n/d] as the nearest float.  Numerator and denominator
    are exact as floats and IEEE division rounds correctly, so the quotient
    is the float the interpreter reads the literal as. *)
Definition of_Q (q : Q) : float := of_Z (Qnum q) / of_Z (Zpos (Qden q)).

(** Round to the nearest integer, ties to even. *)
Definition half_even (q : Q) : Z :=
  let n := Qfloor q in
  match Qcompare (q - inject_Z n) (1 # 2) with
  | Lt => n
  | Gt => (n + 1)%Z
  | Eq => if Z.even n then n else (n + 1)%Z
  end.

(** [round(x, ndigits)] of a float, [0 <= ndigits <= 15]: the exact value of
    [x] is rounded half-even to [ndigits] decimals and the nearest float to
    that decimal is returned; infinities, NaN and zeros round to themselves,
    and so do floats too large to have a fractional part. *)
Definition round (x : float) (ndigits : nat) : float :=
  match Prim2SF x with
  | S754_finite s m e =>
      let p := (10 ^ Z.of_nat ndigits)%Z in
      let n := half_even (inject_Z (Zpos m) * Qpower 2 e * inject_Z p) in
      if (2 ^ 53 <=? n)%Z then x
      else let y := of_Z n / of_Z p in if s then - y else y
  | _ => x
  end.

(** A reference exponential in binary64 arithmetic: the argument is divided
    by 1024, a Taylor polynomial of degree 20 is evaluated, and the result is
    squared ten times.  It stands for the platform's libm, with which it
    agrees to about twelve significant digits; like libm it returns [1] at
    zero and underflows to [0].  It serves to evaluate the function on
    concrete floats; no statement below rests on the digits in which the two
    may differ. *)
Fixpoint taylor (k : nat) (x i term acc : float) : float :=
  match k with
  | O => acc
  | Datatypes.S k' =>
      let term' := term * x / i in
      taylor k' x (i + 1) term' (acc + term')
  end.

Fixpoint squarings (k : nat) (y : float) : float :=
  match k with
  | O => y
  | Datatypes.S k' => squarings k' (y * y)
  end.

Definition exp (x : float) : float :=
  squarings 10 (taylor 20 (x / 1024) 1 1 1).

End F64.

(** Python's [float], with [libm] for [math.exp]. *)
Definition Binary64With (libm : float -> float) : Scalar float := {|
  lit := F64.of_Q;
  num_le := PrimFloat.leb;
  num_lt := PrimFloat.ltb;
  num_eq := PrimFloat.eqb;
  num_add := PrimFloat.add;
  num_sub := PrimFloat.sub;
  num_mul := PrimFloat.mul;
  num_quot := PrimFloat.div;
  num_neg := PrimFloat.opp;
  num_abs := PrimFloat.abs;
  math_exp := libm;
  num_round := F64.round
|}.

Definition Binary64 : Scalar float := Binary64With F64.exp.

(** ** Exact arithmetic *)

Module Real.

Local Open Scope R_scope.

Definition leb (a b : R) : bool := if Rle_dec a b then true else false.
Definition ltb (a b : R) : bool := if Rlt_dec a b then true else false.
Definition eqb (a b : R) : bool := if Req_dec_T a b then true else false.

(** Round to the nearest integer, ties to even. *)
Definition half_even (x : R) : Z :=
  let n := Zfloor x in
  let f := x - IZR n in
  if Rlt_dec f (1 / 2) then n
  else if Rlt_dec (1 / 2) f then (n + 1)%Z
  else if Z.even n then n else (n + 1)%Z.

(** [round(x, ndigits)] without the final conversion to a float. *)
Definition round (x : R) (ndigits : nat) : R :=
  IZR (half_even (x * 10 ^ ndigits)) / 10 ^ ndigits.

End Real.

(** The real numbers: every operation is exact. *)
Definition Exact : Scalar R := {|
  lit := Q2R;
  num_le := Real.leb;
  num_lt := Real.ltb;
  num_eq := Real.eqb;
  num_add := Rplus;
  num_sub := Rminus;
  num_mul := Rmult;
  num_quot := Rdiv;
  num_neg := Ropp;
  num_abs := Rabs;
  math_exp := exp;
  num_round := Real.round
|}.

(** ** The contract's vocabulary *)

(** The ten inputs, in the order of the signature. *)
Inductive field : Type :=
| FD | FM | FT | FP | FW | FB | Fθ | FR | FG | FX.

Definition fields : list field := [FD; FM; FT; FP; FW; FB; Fθ; FR; FG; FX].

(** Position of a field in the signature. *)
Definition position (f : field) : nat :=
  match f with
  | FD => 0 | FM => 1 | FT => 2 | FP => 3 | FW => 4
  | FB => 5 | Fθ => 6 | FR => 7 | FG => 8 | FX => 9
  end.

Local Open Scope string_scope.

(** How an error message names its field: the text before "must be". *)
Definition field_name (f : field) : string :=
  match f with
  | FD => "Distance from Sun (D)"
  | FM => "Planetary Mass (M)"
  | FT => "Surface Temperature (T)"
  | FP => "Atmospheric Pressure (P)"
  | FW => "Water Presence (W)"
  | FB => "Magnetic Field Strength (B)"
  | Fθ => "Axial Tilt (θ)"
  | FR => "Rotation Speed (R)"
  | FG => "Geological Activity (G)"
  | FX => "Radiation Levels (X)"
  end.

(** The message of the [ValueError] raised for a field. *)
Definition message (f : field) : string :=
  match f with
  | FD => "Distance from Sun (D) must be between 0.3 and 30 AU."
  | FM => "Planetary Mass (M) must be between 0.1 and 300 Earth masses."
  | FT => "Surface Temperature (T) must be between 50 and 900 K."
  | FP => "Atmospheric Pressure (P) must be between 10^-5 and 100 bars."
  | FW => "Water Presence (W) must be either 0 (No) or 1 (Yes)."
  | FB => "Magnetic Field Strength (B) must be between 0 and 15 G."
  | Fθ => "Axial Tilt (θ) must be between 0 and 98 degrees."
  | FR => "Rotation Speed (R) must be between 1 and 5832 hours."
  | FG => "Geological Activity (G) must be between 0 and 1."
  | FX => "Radiation Levels (X) must be between 0.01 and 1000 Sv."
  end.

(** The key of the echoed input in the returned dict. *)
Definition key (f : field) : string :=
  match f with
  | FD => "Distance from Sun (AU)"
  | FM => "Planetary Mass (Earth Masses)"
  | FT => "Surface Temperature (K)"
  | FP => "Atmospheric Pressure (bars)"
  | FW => "Water Presence"
  | FB => "Magnetic Field Strength (G)"
  | Fθ => "Axial Tilt (°)"
  | FR => "Rotation Speed (hours)"
  | FG => "Geological Activity"
  | FX => "Radiation Levels (Sv)"
  end.

Definition probability_key : string := "Habitability Probability (0-100)".

Section Contract.

Context {num : Type} {S : Scalar num}.

Local Open Scope py_scope.

(** A profile gives each field its value. *)
Definition profile : Type := field -> num.

Definition score (p : profile) : result (report num) :=
  calculate_planetary_parameters
    (p FD) (p FM) (p FT) (p FP) (p FW) (p FB) (p Fθ) (p FR) (p FG) (p FX).

(** The test the validation applies to a field (lines 35-54). *)
Definition in_domain (p : profile) (f : field) : bool :=
  match f with
  | FD => (lit 0.3 <= p FD) && (p FD <= lit 30)
  | FM => (lit 0.1 <= p FM) && (p FM <= lit 300)
  | FT => (lit 50 <= p FT) && (p FT <= lit 900)
  | FP => (lit 0.00001 <= p FP) && (p FP <= lit 100)
  | FW => member (p FW) [lit 0; lit 1]
  | FB => (lit 0 <= p FB) && (p FB <= lit 15)
  | Fθ => (lit 0 <= p Fθ) && (p Fθ <= lit 98)
  | FR => (lit 1 <= p FR) && (p FR <= lit 5832)
  | FG => (lit 0 <= p FG) && (p FG <= lit 1)
  | FX => (lit 0.01 <= p FX) && (p FX <= lit 1000)
  end.

(** The first field, in signature order, that fails its test. *)
Definition first_violation (p : profile) : option field :=
  find (fun f => negb (in_domain p f)) fields.

(** The six factors (lines 60-65), as functions of their input. *)
Definition f_T (T : num) : result num :=
  q <- truediv (- num_abs (T - lit 288)) (lit 288) ;;
  Return (py_min (lit 1) (py_max (lit 0) (math_exp q))).
Definition f_P (P : num) : result num := truediv P (lit 1 + P).
Definition f_W (W : num) : num := W.
Definition f_B (B : num) : result num := truediv B (B + lit 1).
Definition f_G (G : num) : num := G.
Definition f_X (X : num) : num := math_exp (- X).

(** The product under the reciprocal (line 68), and the score (line 71). *)
Definition product (fT fP fW fB fG fX : num) : num :=
  fT * fP * fW * fB * fG * fX.
Definition P_L (C fT fP fW fB fG fX : num) : num :=
  lit 100 * C * fT * fP * fW * fB * fG * fX.

(** The dict assembled at lines 74-86. *)
Definition results (p : profile) (prob : num) : report num :=
  [ (key FD, Num (p FD));
    (key FM, Num (p FM));
    (key FT, Num (p FT));
    (key FP, Num (p FP));
    (key FW, Str (if p FW == lit 1 then "Yes" else "No"));
    (key FB, Num (p FB));
    (key Fθ, Num (p Fθ));
    (key FR, Num (p FR));
    (key FG, Num (p FG));
    (key FX, Num (p FX));
    (probability_key, Num prob) ].

(** Lines 56-88: what the function does once validation has passed. *)
Definition scoring (p : profile) : result (report num) :=
  fT <- f_T (p FT) ;;
  fP <- f_P (p FP) ;;
  fB <- f_B (p FB) ;;
  C <- truediv (lit 1) (product fT fP (f_W (p FW)) fB (f_G (p FG)) (f_X (p FX))) ;;
  Return (results p
            (num_round (P_L C fT fP (f_W (p FW)) fB (f_G (p FG)) (f_X (p FX))) 2)).

(** [d[k]] on the returned dict. *)
Fixpoint lookup (k : string) (d : report num) : option (value num) :=
  match d with
  | [] => None
  | (k', v) :: d' => if String.eqb k k' then Some v else lookup k d'
  end.

(** *** The function, case by case *)

Lemma score_cases (p : profile) :
  score p =
  match first_violation p with
  | Some f => Raise (ValueError (message f))
  | None => scoring p
  end.
Proof.
  unfold first_violation, score, calculate_planetary_parameters, fields.
  cbn [find in_domain].
  repeat match goal with
  | |- context [negb ?b] => destruct b; cbn [negb message]; [ | reflexivity ]
  end.
  unfold scoring, f_T, f_P, f_B, f_W, f_G, f_X, product, P_L, results, key,
    probability_key.
  destruct (truediv (- num_abs (p FT - lit 288)) (lit 288)); reflexivity.
Qed.

End Contract.

Section Validation.

Context {num : Type} {S : Scalar num}.

Local Open Scope py_scope.

Implicit Type p : @profile num.

(** A field's test reads that field only. *)
Lemma in_domain_ext p p' (f : field) :
  p' f = p f -> in_domain p' f = in_domain p f.
Proof.
  intros E. destruct f; cbn [in_domain]; rewrite E; reflexivity.
Qed.

(** [first_violation] finds the earliest field that fails its test. *)
Lemma first_violation_Some p (f : field) :
  first_violation p = Some f <->
  in_domain p f = false /\
  (forall g, (position g < position f)%nat -> in_domain p g = true).
Proof.
  unfold first_violation, fields. cbn [find]. split.
  - repeat match goal with
    | |- context [negb (in_domain p ?g)] =>
        destruct (in_domain p g) eqn:?; cbn [negb]
    end;
    intros E; try discriminate E; injection E as <-;
    (split; [ assumption | intros g Hg; destruct g; cbn in Hg; try lia; assumption ]).
  - intros [Hf Hlt].
    destruct f;
    repeat match goal with
    | |- context [negb (in_domain p ?g)] =>
        first [ rewrite Hf | rewrite (Hlt g) by (cbn; lia) ]; cbn [negb]
    end; reflexivity.
Qed.

Lemma first_violation_None p :
  first_violation p = None <-> forall f, in_domain p f = true.
Proof.
  unfold first_violation, fields. cbn [find]. split.
  - repeat match goal with
    | |- context [negb (in_domain p ?g)] =>
        destruct (in_domain p g) eqn:?; cbn [negb]
    end;
    intros E; try discriminate E.
    intros f; destruct f; assumption.
  - intros H.
    repeat match goal with
    | |- context [negb (in_domain p ?g)] => rewrite (H g); cbn [negb]
    end; reflexivity.
Qed.

(** A division raises [ZeroDivisionError] and nothing else. *)
Lemma truediv_raises (a b : num) (e : exn) :
  truediv a b = Raise e -> e = ZeroDivisionError.
Proof.
  unfold truediv. destruct (b == lit 0); congruence.
Qed.

(** The scoring part raises [ZeroDivisionError] and nothing else. *)
Lemma scoring_raises p (e : exn) :
  scoring p = Raise e -> e = ZeroDivisionError.
Proof.
  unfold scoring, f_T, f_P, f_B.
  destruct (truediv (- num_abs (p FT - lit 288)) (lit 288)) eqn:E1;
    cbn [bind]; [ | intros [= <-]; exact (truediv_raises _ _ _ E1) ].
  destruct (truediv (p FP) (lit 1 + p FP)) eqn:E2;
    cbn [bind]; [ | intros [= <-]; exact (truediv_raises _ _ _ E2) ].
  destruct (truediv (p FB) (p FB + lit 1)) eqn:E3;
    cbn [bind]; [ | intros [= <-]; exact (truediv_raises _ _ _ E3) ].
  match goal with |- context [truediv (lit 1) ?x] =>
    destruct (truediv (lit 1) x) eqn:E4 end;
    cbn [bind]; [ discriminate | intros [= <-]; exact (truediv_raises _ _ _ E4) ].
Qed.

(** A report that is returned is the dict of line 74 around some score. *)
Lemma scoring_returns p (r : report num) :
  scoring p = Return r -> exists prob, r = results p prob.
Proof.
  unfold scoring.
  destruct (f_T (p FT)); cbn [bind]; [ | discriminate ].
  destruct (f_P (p FP)); cbn [bind]; [ | discriminate ].
  destruct (f_B (p FB)); cbn [bind]; [ | discriminate ].
  match goal with |- context [truediv (lit 1) ?x] =>
    destruct (truediv (lit 1) x) end; cbn [bind]; [ | discriminate ].
  intros [= <-]. eexists. reflexivity.
Qed.

Lemma score_returns p (r : report num) :
  score p = Return r -> first_violation p = None /\ scoring p = Return r.
Proof.
  rewrite score_cases. destruct (first_violation p); [ discriminate | auto ].
Qed.

(** Reading the dict of line 74. *)
Lemma lookup_probability p (prob : num) :
  lookup probability_key (results p prob) = Some (Num prob).
Proof. reflexivity. Qed.

Lemma lookup_water p (prob : num) :
  lookup (key FW) (results p prob) =
  Some (Str (if p FW == lit 1 then "Yes" else "No")).
Proof. reflexivity. Qed.

Lemma lookup_echo p (prob : num) (f : field) :
  f <> FW -> lookup (key f) (results p prob) = Some (Num (p f)).
Proof.
  intros Hf. destruct f; try reflexivity. congruence.
Qed.

End Validation.

(** ** Facts of exact arithmetic *)

(** Unfolds the operations of [Exact] to those of [R]. *)
Ltac lits :=
  cbn [lit Exact num_le num_lt num_eq num_add num_sub
       num_mul num_quot num_neg num_abs math_exp num_round] in *;
  unfold Q2R in *; cbn [Qnum Qden] in *.

Section ExactArithmetic.

Local Open Scope R_scope.
Local Existing Instance Exact.

Implicit Type p : @profile R.

Lemma leb_true (a b : R) : Real.leb a b = true <-> a <= b.
Proof. unfold Real.leb. destruct (Rle_dec a b); intuition discriminate. Qed.

Lemma ltb_true (a b : R) : Real.ltb a b = true <-> a < b.
Proof. unfold Real.ltb. destruct (Rlt_dec a b); intuition discriminate. Qed.

Lemma eqb_true (a b : R) : Real.eqb a b = true <-> a = b.
Proof. unfold Real.eqb. destruct (Req_dec_T a b); intuition discriminate. Qed.

Lemma eqb_false (a b : R) : Real.eqb a b = false <-> a <> b.
Proof. unfold Real.eqb. destruct (Req_dec_T a b); intuition discriminate. Qed.

Lemma between_true (a x b : R) :
  Real.leb a x && Real.leb x b = true <-> a <= x <= b.
Proof. rewrite andb_true_iff, !leb_true. tauto. Qed.

(** The bounds of the closed intervals of lines 35-54 ([W] apart). *)
Definition lo (f : field) : R :=
  match f with
  | FD => 3 / 10 | FM => 1 / 10 | FT => 50 | FP => 1 / 100000 | FW => 0
  | FB => 0 | Fθ => 0 | FR => 1 | FG => 0 | FX => 1 / 100
  end.

Definition hi (f : field) : R :=
  match f with
  | FD => 30 | FM => 300 | FT => 900 | FP => 100 | FW => 1
  | FB => 15 | Fθ => 98 | FR => 5832 | FG => 1 | FX => 1000
  end.


(** Validation in exact arithmetic: membership of the closed interval, and
    for [W] equality with 0 or 1. *)
Lemma in_domain_exact p (f : field) :
  @in_domain R Exact p f = true <->
  match f with
  | FW => p FW = 0 \/ p FW = 1
  | _ => lo f <= p f <= hi f
  end.
Proof.
  destruct f; cbn [in_domain member existsb lo hi]; lits;
    try (rewrite between_true; lra).
  rewrite !orb_true_iff, !eqb_true. intuition (try discriminate; lra).
Qed.

Lemma truediv_exact (a b : R) :
  b <> 0 -> @truediv R Exact a b = Return (a / b).
Proof.
  intros Hb. unfold truediv. lits.
  replace (0 * / 1) with 0 by lra.
  apply eqb_false in Hb. rewrite Hb. reflexivity.
Qed.

Lemma truediv_exact_zero (a b : R) :
  b = 0 -> @truediv R Exact a b = Raise ZeroDivisionError.
Proof.
  intros Hb. unfold truediv. lits.
  replace (0 * / 1) with 0 by lra.
  apply eqb_true in Hb. rewrite Hb. reflexivity.
Qed.

Lemma py_max_exact (a b : R) : @py_max R Exact a b = Rmax a b.
Proof.
  unfold py_max, Rmax. lits. unfold Real.ltb.
  destruct (Rlt_dec a b), (Rle_dec a b); lra.
Qed.

Lemma py_min_exact (a b : R) : @py_min R Exact a b = Rmin a b.
Proof.
  unfold py_min, Rmin. lits. unfold Real.ltb.
  destruct (Rlt_dec b a), (Rle_dec a b); lra.
Qed.

(** The exponent of the temperature factor is never positive, so the
    exponential lies in (0, 1] and the clamp leaves it as it is. *)
Lemma exp_nonpos_bounds (x : R) : x <= 0 -> 0 < exp x <= 1.
Proof.
  intros Hx. split; [ apply exp_pos | ].
  destruct Hx as [Hx | ->]; [ | rewrite exp_0; lra ].
  left. rewrite <- exp_0. apply exp_increasing. exact Hx.
Qed.

Lemma exp_neg_lt_1 (x : R) : x < 0 -> exp x < 1.
Proof. intros Hx. rewrite <- exp_0. apply exp_increasing. exact Hx. Qed.

Definition temperature_exponent (T : R) : R := - Rabs (T - 288) / 288.

Lemma temperature_exponent_nonpos (T : R) : temperature_exponent T <= 0.
Proof.
  unfold temperature_exponent. pose proof (Rabs_pos (T - 288)). lra.
Qed.


Lemma f_T_exact (T : R) :
  @f_T R Exact T =
  Return (Rmin 1 (Rmax 0 (exp (- Rabs (T - 288) / 288)))).
Proof.
  unfold f_T. rewrite truediv_exact by (lits; lra).
  cbn [bind]. rewrite py_max_exact, py_min_exact. lits.
  repeat f_equal; lra.
Qed.

Lemma f_P_exact (P : R) :
  0 <= P -> @f_P R Exact P = Return (P / (1 + P)).
Proof.
  intros HP. unfold f_P. rewrite truediv_exact by (lits; lra).
  lits. repeat f_equal; lra.
Qed.

Lemma f_B_exact (B : R) :
  0 <= B -> @f_B R Exact B = Return (B / (B + 1)).
Proof.
  intros HB. unfold f_B. rewrite truediv_exact by (lits; lra).
  lits. repeat f_equal; lra.
Qed.

Lemma half_even_IZR (z : Z) : Real.half_even (IZR z) = z.
Proof.
  unfold Real.half_even. rewrite ZfloorZ.
  destruct (Rlt_dec (IZR z - IZR z) (1 / 2)); [ reflexivity | lra ].
Qed.

Lemma round_100 : Real.round 100 2 = 100.
Proof.
  unfold Real.round. replace (100 * 10 ^ 2) with (IZR 10000) by (simpl; lra).
  rewrite half_even_IZR. simpl. lra.
Qed.

(** The clamp of the temperature factor never acts. *)
Lemma clamp_inert (T : R) :
  Rmin 1 (Rmax 0 (exp (- Rabs (T - 288) / 288))) = exp (temperature_exponent T).
Proof.
  fold (temperature_exponent T).
  destruct (exp_nonpos_bounds _ (temperature_exponent_nonpos T)) as [H0 H1].
  rewrite Rmax_right by lra. rewrite Rmin_right by lra. reflexivity.
Qed.

(** The six factors of a validated profile, in exact arithmetic. *)
Definition factor (p : profile) (f : field) : R :=
  match f with
  | FT => exp (temperature_exponent (p FT))
  | FP => p FP / (1 + p FP)
  | FW => p FW
  | FB => p FB / (p FB + 1)
  | FG => p FG
  | FX => exp (- p FX)
  | _ => 1
  end.

Definition factor_product p : R :=
  factor p FT * factor p FP * factor p FW * factor p FB * factor p FG * factor p FX.

Lemma factor_T_pos p : 0 < factor p FT.
Proof. apply exp_pos. Qed.

Lemma factor_X_pos p : 0 < factor p FX.
Proof. apply exp_pos. Qed.

Lemma factor_P_pos p : lo FP <= p FP -> 0 < factor p FP.
Proof.
  cbn [lo factor]. intros H. apply Rdiv_lt_0_compat; lra.
Qed.

Lemma factor_B_zero p : 0 <= p FB -> (factor p FB = 0 <-> p FB = 0).
Proof.
  cbn [factor]. intros H. split.
  - intros E. destruct (Req_dec (p FB) 0) as [Z | NZ]; [ exact Z | ].
    assert (0 < p FB / (p FB + 1)) by (apply Rdiv_lt_0_compat; lra). lra.
  - intros ->. lra.
Qed.

Lemma factor_product_zero p :
  lo FP <= p FP -> 0 <= p FB ->
  (factor_product p = 0 <-> p FW = 0 \/ p FB = 0 \/ p FG = 0).
Proof.
  intros HP HB. unfold factor_product.
  pose proof (factor_T_pos p) as HT. pose proof (factor_X_pos p) as HX.
  pose proof (factor_P_pos p HP) as HP'.
  rewrite <- (factor_B_zero p HB).
  change (factor p FW) with (p FW). change (factor p FG) with (p FG).
  split.
  - intros E.
    repeat match type of E with
    | _ * _ = 0 => apply Rmult_integral in E; destruct E as [E | E]
    end; auto; lra.
  - intros [-> | [-> | ->]]; ring.
Qed.

(** What the scoring part computes on a validated profile: the factors are
    those of [factor], the product that of [factor_product]. *)
Lemma scoring_exact p :
  (forall f, @in_domain R Exact p f = true) ->
  @scoring R Exact p =
  (C <- @truediv R Exact 1 (factor_product p) ;;
   Return (results p (Real.round (100 * C * factor_product p) 2)))%py.
Proof.
  intros Hv.
  pose proof (proj1 (in_domain_exact p FP) (Hv FP)) as HP.
  pose proof (proj1 (in_domain_exact p FB) (Hv FB)) as HB.
  cbn [lo hi] in HP, HB.
  unfold scoring.
  rewrite f_T_exact, f_P_exact, f_B_exact by lra. cbn [bind].
  rewrite clamp_inert.
  unfold product, P_L, f_W, f_G, f_X. lits.
  replace (1 * / 1) with 1 by lra.
  replace (100 * / 1) with 100 by lra.
  fold (factor p FT) (factor p FP) (factor p FW) (factor p FB) (factor p FG)
    (factor p FX).
  fold (factor_product p).
  destruct (@truediv R Exact 1 (factor_product p)); cbn [bind]; [ | reflexivity ].
  do 3 f_equal. unfold factor_product. ring.
Qed.

Lemma scoring_exact_returns p :
  (forall f, @in_domain R Exact p f = true) ->
  p FW <> 0 -> p FB <> 0 -> p FG <> 0 ->
  @scoring R Exact p = Return (results p 100).
Proof.
  intros Hv HW HB HG.
  pose proof (proj1 (in_domain_exact p FP) (Hv FP)) as HP'.
  pose proof (proj1 (in_domain_exact p FB) (Hv FB)) as HB'.
  cbn [lo hi] in HP', HB'.
  assert (NZ : factor_product p <> 0).
  { rewrite factor_product_zero by (cbn [lo]; lra). tauto. }
  rewrite scoring_exact by exact Hv.
  rewrite truediv_exact by exact NZ. cbn [bind].
  replace (100 * (1 / factor_product p) * factor_product p) with 100
    by (field; exact NZ).
  rewrite round_100. reflexivity.
Qed.

Lemma scoring_exact_raises p :
  (forall f, @in_domain R Exact p f = true) ->
  p FW = 0 \/ p FB = 0 \/ p FG = 0 ->
  @scoring R Exact p = Raise ZeroDivisionError.
Proof.
  intros Hv Hz.
  pose proof (proj1 (in_domain_exact p FP) (Hv FP)) as HP'.
  pose proof (proj1 (in_domain_exact p FB) (Hv FB)) as HB'.
  cbn [lo hi] in HP', HB'.
  rewrite scoring_exact by exact Hv.
  rewrite truediv_exact_zero; [ reflexivity | ].
  apply factor_product_zero; [ cbn [lo]; lra | lra | exact Hz ].
Qed.

End ExactArithmetic.

(** ** Profiles used as examples *)

Definition mk {num : Type} (D M T P W B θ R G X : num) : @profile num :=
  fun f =>
    match f with
    | FD => D | FM => M | FT => T | FP => P | FW => W
    | FB => B | Fθ => θ | FR => R | FG => G | FX => X
    end.

(** The Earth-like profile: D=1, M=1, T=288, P=1, W=1, B=0.5, θ=23, R=24,
    G=1, X=0.01. *)
Definition earth {num : Type} {S : Scalar num} : @profile num :=
  mk (lit 1) (lit 1) (lit 288) (lit 1) (lit 1)
     (lit 0.5) (lit 23) (lit 24) (lit 1) (lit 0.01).

Definition field_eqb (f g : field) : bool := Nat.eqb (position f) (position g).

(** [p] with field [f] set to [x]. *)
Definition with_field {num : Type} (p : @profile num) (f : field) (x : num)
  : @profile num :=
  fun g => if field_eqb g f then x else p g.

(** The factors of a profile, in the order of lines 60-65. *)
Definition factors {num : Type} {S : Scalar num} (p : @profile num)
  : result (list num) :=
  (fT <- f_T (p FT) ;;
   fP <- f_P (p FP) ;;
   fB <- f_B (p FB) ;;
   Return [fT; fP; f_W (p FW); fB; f_G (p FG); f_X (p FX)])%py.

(** [0 < x], as Python compares. *)
Definition strictly_positive {num : Type} {S : Scalar num} (x : num) : bool :=
  (lit 0 < x)%py.

Definition all_factors_positive {num : Type} {S : Scalar num}
  (p : @profile num) : bool :=
  match factors p with
  | Return fs => forallb strictly_positive fs
  | Raise _ => false
  end.

(** ** Validation (lines 35-54) *)

Section ValidationClaims.

Context {num : Type} {S : Scalar num}.

Local Open Scope py_scope.

Implicit Type p : @profile num.

(** C4. Validation runs in the order D, M, T, P, W, B, θ, R, G, X and stops at
    the first field out of its domain: when [f] fails its test and every field
    before it passes, the call raises the [ValueError] of [f], whatever the
    later fields hold (valid or not); so a profile that agrees with [p] up to
    [f] raises the same error. *)
Theorem validation_order p (f : field) :
  in_domain p f = false ->
  (forall g, (position g < position f)%nat -> in_domain p g = true) ->
  first_violation p = Some f /\
  score p = Raise (ValueError (message f)) /\
  (forall p' : profile,
      (forall g, (position g <= position f)%nat -> p' g = p g) ->
      score p' = Raise (ValueError (message f))).
Proof.
  intros Hf Hlt.
  assert (V : first_violation p = Some f)
    by (apply first_violation_Some; split; assumption).
  split; [ exact V | ]. split.
  - rewrite score_cases, V. reflexivity.
  - intros p' Hp'.
    assert (V' : first_violation p' = Some f).
    { apply first_violation_Some. split.
      - rewrite (in_domain_ext p p') by (apply Hp'; lia). exact Hf.
      - intros g Hg. rewrite (in_domain_ext p p') by (apply Hp'; lia).
        apply Hlt. exact Hg. }
    rewrite score_cases, V'. reflexivity.
Qed.

(** C5. With D, M, T and P valid, [W] passes its test exactly when [W == 0]
    or [W == 1]; any other value raises the [ValueError] of the water field,
    whose message starts with the field's name, and a value that passes never
    raises it. *)
Theorem water_presence_domain p :
  (forall g, (position g < position FW)%nat -> in_domain p g = true) ->
  in_domain p FW = (p FW == lit 0) || (p FW == lit 1) /\
  ((p FW == lit 0) || (p FW == lit 1) = false ->
     score p = Raise (ValueError (message FW)) /\
     String.prefix (field_name FW) (message FW) = true) /\
  ((p FW == lit 0) || (p FW == lit 1) = true ->
     score p <> Raise (ValueError (message FW))).
Proof.
  intros Hlt.
  assert (E : in_domain p FW = (p FW == lit 0) || (p FW == lit 1)).
  { cbn [in_domain member existsb]. rewrite orb_false_r. reflexivity. }
  split; [ exact E | ]. split.
  - intros HW. split; [ | reflexivity ].
    rewrite score_cases.
    replace (first_violation p) with (Some FW); [ reflexivity | ].
    symmetry. apply first_violation_Some. split; [ congruence | exact Hlt ].
  - intros HW. rewrite score_cases.
    destruct (first_violation p) as [f | ] eqn:V.
    + apply first_violation_Some in V. destruct V as [Vf _].
      destruct f; try discriminate. congruence.
    + intros Habs. apply scoring_raises in Habs. discriminate.
Qed.

(** C6. Mass and axial tilt do not enter the score: two profiles that differ
    in M and θ only, and on which the call returns, get the same
    habitability probability. *)
Theorem mass_and_tilt_unused p p' (r r' : report num) :
  (forall g, g <> FM -> g <> Fθ -> p' g = p g) ->
  score p = Return r ->
  score p' = Return r' ->
  lookup probability_key r = lookup probability_key r' /\
  exists prob, lookup probability_key r = Some (Num prob).
Proof.
  intros Hagree Hr Hr'.
  apply score_returns in Hr. destruct Hr as [_ Hr].
  apply score_returns in Hr'. destruct Hr' as [_ Hr'].
  unfold scoring in Hr, Hr'.
  rewrite (Hagree FT), (Hagree FP), (Hagree FB), (Hagree FW), (Hagree FG),
    (Hagree FX) in Hr' by discriminate.
  destruct (f_T (p FT)) as [fT | ]; cbn [bind] in Hr, Hr'; [ | discriminate ].
  destruct (f_P (p FP)) as [fP | ]; cbn [bind] in Hr, Hr'; [ | discriminate ].
  destruct (f_B (p FB)) as [fB | ]; cbn [bind] in Hr, Hr'; [ | discriminate ].
  match type of Hr with context [truediv (lit 1) ?x] =>
    destruct (truediv (lit 1) x) as [C | ] end;
    cbn [bind] in Hr, Hr'; [ | discriminate ].
  injection Hr as <-. injection Hr' as <-.
  rewrite !lookup_probability. split; [ reflexivity | eexists; reflexivity ].
Qed.


End ValidationClaims.

(** ** The numeric law used above, in both arithmetics *)

Lemma Exact_zero_not_one (w : R) :
  @num_eq R Exact w (@lit R Exact 0) = true ->
  @num_eq R Exact w (@lit R Exact 1) = false.
Proof.
  lits. rewrite eqb_true, eqb_false. lra.
Qed.


(** ** The claims above, at concrete float inputs *)

Section FloatWitnesses.

Local Open Scope float_scope.
Local Existing Instance Binary64.

(** M = 1000 and X = -1 are both out of range: the error is that of M. *)
Lemma validation_order_witness :
  let p := mk 1 1000 288 1 1 0.5 23 24 1 (-1) in
  first_violation p = Some FM /\
  score p = Raise (ValueError (message FM)) /\
  (forall p' : profile,
      (forall g, (position g <= position FM)%nat -> p' g = p g) ->
      score p' = Raise (ValueError (message FM))).
Proof.
  intros p. apply (validation_order p FM).
  - vm_compute. reflexivity.
  - intros g Hg. destruct g; cbn in Hg; try lia; vm_compute; reflexivity.
Defined.

(** W = 2 (and likewise -1 and 0.5) is refused. *)
Lemma water_presence_domain_witness :
  let p := with_field earth FW 2 in
  in_domain p FW = (num_eq (p FW) (lit 0) || num_eq (p FW) (lit 1)) /\
  (num_eq (p FW) (lit 0) || num_eq (p FW) (lit 1) = false ->
     score p = Raise (ValueError (message FW)) /\
     String.prefix (field_name FW) (message FW) = true) /\
  (num_eq (p FW) (lit 0) || num_eq (p FW) (lit 1) = true ->
     score p <> Raise (ValueError (message FW))).
Proof.
  intros p. apply (water_presence_domain p).
  intros g Hg. destruct g; cbn in Hg; try lia; vm_compute; reflexivity.
Defined.

Lemma water_presence_refused_examples :
  score (with_field earth FW 2) = Raise (ValueError (message FW)) /\
  score (with_field earth FW (-1)) = Raise (ValueError (message FW)) /\
  score (with_field earth FW 0.5) = Raise (ValueError (message FW)).
Proof. repeat split; vm_compute; reflexivity. Qed.

(** Earth with M = 5 and θ = 45 scores like Earth. *)
Lemma mass_and_tilt_unused_witness :
  let p := earth in
  let p' := with_field (with_field earth FM 5) Fθ 45 in
  lookup probability_key (results p 100) =
  lookup probability_key (results p' 100) /\
  exists prob, lookup probability_key (results p 100) = Some (Num prob).
Proof.
  intros p p'. apply (mass_and_tilt_unused p p').
  - intros g HM Hθ. destruct g; try reflexivity; congruence.
  - vm_compute. reflexivity.
  - vm_compute. reflexivity.
Defined.


End FloatWitnesses.

(** ** The report, in any arithmetic *)

Section Report.

Context {num : Type} {S : Scalar num}.

Local Open Scope py_scope.

Implicit Type p : @profile num.



End Report.


(** ** The claims of exact arithmetic *)

(** Proves that a concrete profile passes every test of the validation. *)
Ltac exact_valid :=
  let f := fresh "f" in
  intros f; apply in_domain_exact; destruct f;
  cbv [with_field earth mk field_eqb position Nat.eqb lo hi];
  lits; try lra.

Section ExactClaims.

Local Open Scope R_scope.
Local Existing Instance Exact.

Implicit Type p : @profile R.

Lemma strictly_positive_exact (x : R) : strictly_positive x = true <-> 0 < x.
Proof.
  unfold strictly_positive. lits. rewrite ltb_true. lra.
Qed.

(** The factors the code computes on a validated profile are those of
    [factor]. *)
Lemma factors_exact p :
  (forall f, in_domain p f = true) ->
  factors p =
  Return [factor p FT; factor p FP; factor p FW; factor p FB; factor p FG;
          factor p FX].
Proof.
  intros Hv.
  pose proof (proj1 (in_domain_exact p FP) (Hv FP)) as HP.
  pose proof (proj1 (in_domain_exact p FB) (Hv FB)) as HB.
  cbn [lo hi] in HP, HB.
  unfold factors. rewrite f_T_exact, f_P_exact, f_B_exact by lra.
  cbn [bind]. rewrite clamp_inert. reflexivity.
Qed.


Lemma earth_valid_exact : forall f, in_domain (@earth R Exact) f = true.
Proof. exact_valid. Qed.










(** A report is returned, in exact arithmetic, only with score 100. *)
Lemma score_returns_exact p (r : report R) :
  score p = Return r ->
  (forall f, in_domain p f = true) /\
  factor_product p <> 0 /\
  r = results p (Real.round (100 * (1 / factor_product p) * factor_product p) 2) /\
  r = results p 100.
Proof.
  intros Hr. apply score_returns in Hr. destruct Hr as [V Hr].
  pose proof (proj1 (first_violation_None p) V) as Hv.
  split; [ exact Hv | ].
  rewrite (scoring_exact p Hv) in Hr.
  destruct (Req_dec (factor_product p) 0) as [Z | NZ].
  - rewrite (truediv_exact_zero _ _ Z) in Hr. discriminate.
  - split; [ exact NZ | ].
    rewrite (truediv_exact _ _ NZ) in Hr. cbn [bind] in Hr.
    injection Hr as <-. split; [ reflexivity | ].
    replace (100 * (1 / factor_product p) * factor_product p) with 100
      by (field; exact NZ).
    rewrite round_100. reflexivity.
Qed.



(** C10. Under exact arithmetic, on every profile that passes validation the
    three divisions of lines 60-63 succeed, the factors f_T, f_P and f_X are
    strictly positive, the product of the six factors is zero exactly when
    W = 0, B = 0 or G = 0, and when none of the three is zero the division
    that computes C succeeds. *)
Theorem factor_product_zero_iff p :
  first_violation p = None ->
  exists fT fP fB,
    f_T (p FT) = Return fT /\ f_P (p FP) = Return fP /\
    f_B (p FB) = Return fB /\
    0 < fT /\ 0 < fP /\ 0 < f_X (p FX) /\
    let prod := product fT fP (f_W (p FW)) fB (f_G (p FG)) (f_X (p FX)) in
    (prod = 0 <-> p FW = 0 \/ p FB = 0 \/ p FG = 0) /\
    (p FW <> 0 -> p FB <> 0 -> p FG <> 0 ->
       truediv 1 prod = Return (1 / prod)).
Proof.
  intros V.
  pose proof (proj1 (first_violation_None p) V) as Hv.
  pose proof (proj1 (in_domain_exact p FP) (Hv FP)) as HP.
  pose proof (proj1 (in_domain_exact p FB) (Hv FB)) as HB.
  cbn [lo hi] in HP, HB.
  exists (factor p FT), (factor p FP), (factor p FB).
  split. { rewrite f_T_exact, clamp_inert. reflexivity. }
  split. { apply f_P_exact. lra. }
  split. { apply f_B_exact. lra. }
  split. { apply factor_T_pos. }
  split. { apply factor_P_pos. cbn [lo]. lra. }
  split. { apply factor_X_pos. }
  assert (Eprod : product (factor p FT) (factor p FP) (f_W (p FW)) (factor p FB)
                    (f_G (p FG)) (f_X (p FX)) = factor_product p)
    by reflexivity.
  cbv zeta. rewrite Eprod.
  assert (Z : factor_product p = 0 <-> p FW = 0 \/ p FB = 0 \/ p FG = 0)
    by (apply factor_product_zero; cbn [lo]; lra).
  split; [ exact Z | ].
  intros HW HB' HG. apply truediv_exact. rewrite Z. tauto.
Qed.

Lemma factor_product_zero_iff_witness :
  let p := @earth R Exact in
  exists fT fP fB,
    f_T (p FT) = Return fT /\ f_P (p FP) = Return fP /\
    f_B (p FB) = Return fB /\
    0 < fT /\ 0 < fP /\ 0 < f_X (p FX) /\
    let prod := product fT fP (f_W (p FW)) fB (f_G (p FG)) (f_X (p FX)) in
    (prod = 0 <-> p FW = 0 \/ p FB = 0 \/ p FG = 0) /\
    (p FW <> 0 -> p FB <> 0 -> p FG <> 0 ->
       truediv 1 prod = Return (1 / prod)).
Proof.
  intros p. apply (factor_product_zero_iff p).
  apply first_violation_None. exact earth_valid_exact.
Defined.

End ExactClaims.

(** ** Where the product of the factors is zero, underflows or overflows *)

Section Degenerate.

Local Open Scope float_scope.

(** Earth without water: W = 0, every other field as on Earth. *)
Definition no_water {num : Type} {S : Scalar num} : @profile num :=
  with_field earth FW (lit 0).


Lemma no_water_valid_exact : forall f, @in_domain R Exact (@no_water R Exact) f = true.
Proof. unfold no_water. exact_valid. Qed.


(** C2. On Earth without water, W = 0 passes validation and the reciprocal of
    line 68 divides by zero: the call raises [ZeroDivisionError], in exact
    arithmetic and on floats.  No policy for a zero factor is in the code. *)
Theorem no_water_zero_division :
  @first_violation R Exact (@no_water R Exact) = None /\
  @score R Exact (@no_water R Exact) = Raise ZeroDivisionError /\
  @first_violation float Binary64 (@no_water float Binary64) = None /\
  @score float Binary64 (@no_water float Binary64) = Raise ZeroDivisionError.
Proof.
  assert (V : @first_violation R Exact (@no_water R Exact) = None)
    by (apply first_violation_None; exact no_water_valid_exact).
  split; [ exact V | ]. split.
  - rewrite score_cases, V.
    apply scoring_exact_raises; [ exact no_water_valid_exact | ].
    left. cbv [no_water with_field field_eqb position Nat.eqb]. lits.
    apply Rmult_0_l.
  - split; vm_compute; reflexivity.
Qed.


Local Existing Instance Binary64.


Definition vanishing_product : @profile float :=
  mk 1 1 288 1 1 1e-300 23 24 1e-300 0.01.




(** A positive float at most 1 is finite, and zero times it is zero. *)
Lemma zero_times_positive (y : float) :
  (0 <? y) = true -> (y <=? 1) = true -> (0 * y =? 0) = true.
Proof.
  rewrite FloatAxioms.ltb_spec, FloatAxioms.leb_spec, FloatAxioms.eqb_spec,
    FloatAxioms.mul_spec.
  change (Prim2SF 0) with (S754_zero false).
  change (Prim2SF 1) with (S754_finite false 4503599627370496 (-52)).
  destruct (Prim2SF y) as [ s | s | | s m e ]; intros Hpos Hle.
  - discriminate Hpos.
  - destruct s; discriminate.
  - discriminate Hpos.
  - destruct s; [ discriminate Hpos | reflexivity ].
Qed.

(** The underflow does not depend on the platform's [exp]: with any [libm]
    that returns 1 at zero and a positive float at most 1 at -0.01, the
    profile [vanishing_product] passes validation, has six strictly positive
    factors, and the call raises [ZeroDivisionError]. *)
Theorem vanishing_product_any_libm (libm : float -> float) :
  libm (-0) = 1 ->
  (0 <? libm (-0.01)) = true ->
  (libm (-0.01) <=? 1) = true ->
  @first_violation float (Binary64With libm) vanishing_product = None /\
  @all_factors_positive float (Binary64With libm) vanishing_product = true /\
  @score float (Binary64With libm) vanishing_product = Raise ZeroDivisionError.
Proof.
  intros H0 Hpos Hle. cbv in H0, Hpos, Hle.
  assert (V : @first_violation float (Binary64With libm) vanishing_product = None)
    by (vm_compute; reflexivity).
  split; [ exact V | ]. split.
  - cbv. rewrite H0. cbv. rewrite Hpos. reflexivity.
  - rewrite score_cases, V. unfold scoring.
    assert (HT : @f_T float (Binary64With libm) (vanishing_product FT) = Return 1)
      by (cbv; rewrite H0; reflexivity).
    assert (HP : @f_P float (Binary64With libm) (vanishing_product FP) = Return 0.5)
      by (vm_compute; reflexivity).
    assert (HB : @f_B float (Binary64With libm) (vanishing_product FB)
                 = Return 1e-300)
      by (vm_compute; reflexivity).
    rewrite HT, HP, HB. cbn [bind].
    match goal with |- context [@truediv _ ?I ?a ?b] =>
      assert (HC : @truediv _ I a b = Raise ZeroDivisionError)
    end.
    { cbv. rewrite (zero_times_positive _ Hpos Hle). reflexivity. }
    rewrite HC. reflexivity.
Qed.

Lemma vanishing_product_any_libm_witness :
  @first_violation float (Binary64With F64.exp) vanishing_product = None /\
  @all_factors_positive float (Binary64With F64.exp) vanishing_product = true /\
  @score float (Binary64With F64.exp) vanishing_product
    = Raise ZeroDivisionError.
Proof.
  apply (vanishing_product_any_libm F64.exp); vm_compute; reflexivity.
Defined.

(** On floats D = 0.29 raises the error of D, and the two ends of its
    interval, D = 0.3 and D = 30, return a report. *)
Lemma distance_examples_binary64 :
  score (with_field earth FD 0.29) = Raise (ValueError (message FD)) /\
  score (with_field earth FD 0.3)
    = Return (results (with_field earth FD 0.3) 100) /\
  score (with_field earth FD 30)
    = Return (results (with_field earth FD 30) 100).
Proof. repeat split; vm_compute; reflexivity. Qed.

(** The Earth example of the spec, on floats: every input is echoed, water
    is "Yes" and the probability is 100.0. *)
Lemma earth_scores_100_binary64 :
  score earth = Return (results earth 100) /\
  lookup (key FW) (results earth 100) = Some (Str "Yes") /\
  lookup probability_key (results earth 100) = Some (Num 100).
Proof. repeat split; vm_compute; reflexivity. Qed.

End Degenerate.

(** ** What a caller can rely on, in any arithmetic *)

Section Outcomes.

Context {num : Type} {S : Scalar num}.

Local Open Scope py_scope.

Implicit Type p : @profile num.

(** The three outcomes of a call.  A report is returned only when all ten
    fields passed their tests, and it is the dict of line 74; a [ValueError]
    carries the message of the first field that failed; a
    [ZeroDivisionError] comes only after all ten fields passed. *)
Theorem score_outcomes p :
  match score p with
  | Return r =>
      (forall f, in_domain p f = true) /\ exists prob, r = results p prob
  | Raise (ValueError msg) =>
      exists f, first_violation p = Some f /\ msg = message f
  | Raise ZeroDivisionError => forall f, in_domain p f = true
  end.
Proof.
  rewrite score_cases. destruct (first_violation p) as [f | ] eqn:V.
  - exists f. split; reflexivity.
  - pose proof (proj1 (first_violation_None p) V) as Hv.
    destruct (scoring p) as [r | e] eqn:Hs.
    + split; [ exact Hv | exact (scoring_returns p r Hs) ].
    + rewrite (scoring_raises p e Hs). exact Hv.
Qed.

(** The message tells the field: two fields never share a message. *)
Lemma message_injective (f g : field) : message f = message g -> f = g.
Proof.
  destruct f, g; intros E; try reflexivity; discriminate E.
Qed.

(** From the error to the input: when the call raises the [ValueError] of
    field [f], that field is out of its domain and every field before it, in
    signature order, is within its own. *)
Theorem error_identifies_field p (f : field) :
  score p = Raise (ValueError (message f)) ->
  in_domain p f = false /\
  (forall g, (position g < position f)%nat -> in_domain p g = true).
Proof.
  intros Hr. apply first_violation_Some.
  rewrite score_cases in Hr. destruct (first_violation p) as [g | ] eqn:V.
  - injection Hr as E. apply message_injective in E. congruence.
  - apply scoring_raises in Hr. discriminate Hr.
Qed.

(** The returned dict: eleven entries under eleven different keys, the ten
    inputs in signature order and the probability last; every input but W is
    found under its key unchanged, and W is found as "Yes" or "No". *)
Theorem report_shape p (r : report num) :
  score p = Return r ->
  map fst r = (map key fields ++ [probability_key])%list /\
  NoDup (map fst r) /\
  List.length r = 11%nat /\
  (forall f, f <> FW -> lookup (key f) r = Some (Num (p f))) /\
  (lookup (key FW) r = Some (Str "Yes") \/
   lookup (key FW) r = Some (Str "No")) /\
  exists prob, lookup probability_key r = Some (Num prob).
Proof.
  intros Hr. apply score_returns in Hr. destruct Hr as [_ Hr].
  destruct (scoring_returns p r Hr) as [prob ->].
  split; [ reflexivity | ].
  split.
  { cbn [map results fst].
    repeat (constructor;
            [ cbn [In]; intros H;
              repeat (destruct H as [H | H]; [ discriminate H | ]);
              exact H | ]).
    constructor. }
  split; [ reflexivity | ].
  split; [ intros f Hf; apply lookup_echo; exact Hf | ].
  split.
  { rewrite lookup_water. destruct (p FW == lit 1); [ left | right ]; reflexivity. }
  exists prob. apply lookup_probability.
Qed.

(** Only T, P, W, B, G and X are read after validation: on two validated
    profiles that agree on these six fields the call ends the same way, with
    the same exception or with the same probability; D, M, θ and R only show
    in the echoed entries. *)
Theorem score_reads_six_fields p p' :
  (forall f, In f [FT; FP; FW; FB; FG; FX] -> p' f = p f) ->
  first_violation p = None ->
  first_violation p' = None ->
  match score p, score p' with
  | Return r, Return r' =>
      lookup probability_key r = lookup probability_key r'
  | Raise e, Raise e' => e = e'
  | _, _ => False
  end.
Proof.
  intros Hagree V V'. rewrite !score_cases, V, V'. unfold scoring.
  rewrite (Hagree FT), (Hagree FP), (Hagree FB), (Hagree FW), (Hagree FG),
    (Hagree FX) by (cbn [In]; tauto).
  destruct (f_T (p FT)) as [fT | ]; cbn [bind]; [ | reflexivity ].
  destruct (f_P (p FP)) as [fP | ]; cbn [bind]; [ | reflexivity ].
  destruct (f_B (p FB)) as [fB | ]; cbn [bind]; [ | reflexivity ].
  match goal with |- context [truediv (lit 1) ?x] =>
    destruct (truediv (lit 1) x) as [C | ] end; cbn [bind]; [ | reflexivity ].
  rewrite !lookup_probability. reflexivity.
Qed.

End Outcomes.

Section OutcomeWitnesses.

Local Open Scope float_scope.
Local Existing Instance Binary64.

(** T = 1000 with a NaN radiation level: the error is that of T. *)
Lemma error_identifies_field_witness :
  let p := with_field (with_field earth FT 1000) FX nan in
  in_domain p FT = false /\
  (forall g, (position g < position FT)%nat -> in_domain p g = true).
Proof.
  intros p. apply (error_identifies_field p FT). vm_compute. reflexivity.
Defined.

Lemma report_shape_witness :
  let p := earth in
  let r := results p 100 in
  map fst r = (map key fields ++ [probability_key])%list /\
  NoDup (map fst r) /\
  List.length r = 11%nat /\
  (forall f, f <> FW -> lookup (key f) r = Some (Num (p f))) /\
  (lookup (key FW) r = Some (Str "Yes") \/
   lookup (key FW) r = Some (Str "No")) /\
  exists prob, lookup probability_key r = Some (Num prob).
Proof.
  intros p r. apply (report_shape p r). vm_compute. reflexivity.
Defined.

(** Earth moved to D = 5.2, M = 300, θ = 3 and R = 10 ends like Earth. *)
Lemma score_reads_six_fields_witness :
  let p := earth in
  let p' := mk 5.2 300 288 1 1 0.5 3 10 1 0.01 in
  match score p, score p' with
  | Return r, Return r' =>
      lookup probability_key r = lookup probability_key r'
  | Raise e, Raise e' => e = e'
  | _, _ => False
  end.
Proof.
  intros p p'. apply (score_reads_six_fields p p').
  - intros f Hf. cbn [In] in Hf.
    repeat (destruct Hf as [<- | Hf]; [ vm_compute; reflexivity | ]).
    contradiction.
  - vm_compute. reflexivity.
  - vm_compute. reflexivity.
Defined.

End OutcomeWitnesses.

(** ** More of exact arithmetic *)

Section ExactOutcomes.

Local Open Scope R_scope.
Local Existing Instance Exact.

Implicit Type p : @profile R.

(** The whole function under exact arithmetic: the [ValueError] of the first
    invalid field; else [ZeroDivisionError] when W, B or G is zero; else the
    dict of line 74 with probability 100.  Nothing else can happen. *)
Theorem score_exact_outcome p :
  score p =
  match first_violation p with
  | Some f => Raise (ValueError (message f))
  | None =>
      if Real.eqb (p FW) 0 || Real.eqb (p FB) 0 || Real.eqb (p FG) 0
      then Raise ZeroDivisionError
      else Return (results p 100)
  end.
Proof.
  rewrite score_cases. destruct (first_violation p) as [f | ] eqn:V;
    [ reflexivity | ].
  pose proof (proj1 (first_violation_None p) V) as Hv.
  destruct (Real.eqb (p FW) 0) eqn:EW; cbn [orb].
  { apply scoring_exact_raises; [ exact Hv | ]. apply eqb_true in EW. tauto. }
  destruct (Real.eqb (p FB) 0) eqn:EB; cbn [orb].
  { apply scoring_exact_raises; [ exact Hv | ]. apply eqb_true in EB. tauto. }
  destruct (Real.eqb (p FG) 0) eqn:EG.
  { apply scoring_exact_raises; [ exact Hv | ]. apply eqb_true in EG. tauto. }
  apply scoring_exact_returns; [ exact Hv | | | ]; apply eqb_false; assumption.
Qed.

(** The converse of C1: under exact arithmetic the call returns a report
    exactly on the validated profiles whose six factors are all strictly
    positive. *)
Theorem returns_iff_factors_positive_exact p :
  (exists r, score p = Return r) <->
  first_violation p = None /\ all_factors_positive p = true.
Proof.
  split.
  - intros [r Hr].
    destruct (score_returns_exact p r Hr) as (Hv & NZ & _).
    pose proof (proj1 (in_domain_exact p FP) (Hv FP)) as HP.
    pose proof (proj1 (in_domain_exact p FB) (Hv FB)) as HB.
    pose proof (proj1 (in_domain_exact p FG) (Hv FG)) as HG.
    pose proof (proj1 (in_domain_exact p FW) (Hv FW)) as HW.
    cbn [lo hi] in HP, HB, HG.
    split; [ apply first_violation_None; exact Hv | ].
    assert (Z : ~ (p FW = 0 \/ p FB = 0 \/ p FG = 0)).
    { intros Z. apply NZ. apply factor_product_zero; [ cbn [lo]; lra | lra | exact Z ]. }
    unfold all_factors_positive. rewrite (factors_exact p Hv).
    cbn [forallb]. rewrite !andb_true_iff, !strictly_positive_exact.
    repeat split.
    + apply factor_T_pos.
    + apply factor_P_pos. cbn [lo]. lra.
    + cbn [factor]. lra.
    + cbn [factor]. apply Rdiv_lt_0_compat; lra.
    + cbn [factor]. lra.
    + apply factor_X_pos.
  - intros [V Hpos].
    pose proof (proj1 (first_violation_None p) V) as Hv.
    pose proof (proj1 (in_domain_exact p FB) (Hv FB)) as HB. cbn [lo hi] in HB.
    unfold all_factors_positive in Hpos. rewrite (factors_exact p Hv) in Hpos.
    cbn [forallb] in Hpos.
    rewrite !andb_true_iff, !strictly_positive_exact in Hpos.
    destruct Hpos as (_ & _ & HW & HfB & HG & _).
    cbn [factor] in HW, HfB, HG.
    assert (p FB <> 0) by (intros E; rewrite E in HfB; lra).
    exists (results p 100). rewrite score_cases, V.
    apply scoring_exact_returns; [ exact Hv | lra | assumption | lra ].
Qed.

(** Under exact arithmetic a returned report always says "Yes": the call
    returns only with W = 1, so the "No" of line 79 is never seen. *)
Theorem returned_water_is_yes_exact p (r : report R) :
  score p = Return r ->
  p FW = 1 /\ lookup (key FW) r = Some (Str "Yes").
Proof.
  intros Hr.
  destruct (score_returns_exact p r Hr) as (Hv & NZ & _ & ->).
  pose proof (proj1 (in_domain_exact p FP) (Hv FP)) as HP.
  pose proof (proj1 (in_domain_exact p FB) (Hv FB)) as HB.
  pose proof (proj1 (in_domain_exact p FW) (Hv FW)) as HW.
  cbn [lo hi] in HP, HB.
  assert (W1 : p FW = 1).
  { destruct HW as [W0 | W1]; [ | exact W1 ].
    exfalso. apply NZ. apply factor_product_zero; [ cbn [lo]; lra | lra | tauto ]. }
  split; [ exact W1 | ].
  rewrite lookup_water. lits.
  replace (Real.eqb (p FW) (1 * / 1)) with true; [ reflexivity | ].
  symmetry. apply eqb_true. lra.
Qed.

Lemma returned_water_is_yes_exact_witness :
  @earth R Exact FW = 1 /\
  lookup (key FW) (results (@earth R Exact) 100) = Some (Str "Yes").
Proof.
  apply (returned_water_is_yes_exact earth (results earth 100)).
  rewrite score_cases.
  rewrite (proj2 (first_violation_None earth) earth_valid_exact).
  apply scoring_exact_returns; [ exact earth_valid_exact | | | ];
    cbv [earth mk]; lits; lra.
Defined.

End ExactOutcomes.

(** ** The six factors, under exact arithmetic *)

Section ExactFactors.

Local Open Scope R_scope.
Local Existing Instance Exact.

Implicit Type p : @profile R.

Lemma unit_interval_mult (a b : R) :
  0 <= a <= 1 -> 0 <= b <= 1 -> 0 <= a * b <= 1.
Proof.
  intros [Ha0 Ha1] [Hb0 Hb1]. split.
  - apply Rmult_le_pos; assumption.
  - replace 1 with (1 * 1) by ring. apply Rmult_le_compat; assumption.
Qed.

(** On every validated profile each of the six factors lies in [0, 1]:
    f_T in (0, 1], f_P and f_X in (0, 1), f_B in [0, 1), f_W and f_G in
    [0, 1]; and so does the product that line 68 inverts. *)
Theorem factor_ranges_exact p :
  first_violation p = None ->
  exists fT fP fB,
    f_T (p FT) = Return fT /\ f_P (p FP) = Return fP /\
    f_B (p FB) = Return fB /\
    0 < fT <= 1 /\ 0 < fP < 1 /\ 0 <= f_W (p FW) <= 1 /\
    0 <= fB < 1 /\ 0 <= f_G (p FG) <= 1 /\ 0 < f_X (p FX) < 1 /\
    0 <= product fT fP (f_W (p FW)) fB (f_G (p FG)) (f_X (p FX)) <= 1.
Proof.
  intros V.
  pose proof (proj1 (first_violation_None p) V) as Hv.
  pose proof (proj1 (in_domain_exact p FP) (Hv FP)) as HP.
  pose proof (proj1 (in_domain_exact p FB) (Hv FB)) as HB.
  pose proof (proj1 (in_domain_exact p FG) (Hv FG)) as HG.
  pose proof (proj1 (in_domain_exact p FW) (Hv FW)) as HW.
  pose proof (proj1 (in_domain_exact p FX) (Hv FX)) as HX.
  cbn [lo hi] in HP, HB, HG, HX.
  exists (factor p FT), (factor p FP), (factor p FB).
  assert (RT : 0 < factor p FT <= 1).
  { apply exp_nonpos_bounds. apply temperature_exponent_nonpos. }
  assert (RP : 0 < factor p FP < 1).
  { cbn [factor]. split; [ apply Rdiv_lt_0_compat; lra | ].
    apply (Rmult_lt_reg_r (1 + p FP)); [ lra | ].
    unfold Rdiv. rewrite Rmult_assoc, Rinv_l by lra. lra. }
  assert (RB : 0 <= factor p FB < 1).
  { cbn [factor]. split.
    - apply Rmult_le_pos; [ lra | ]. left. apply Rinv_0_lt_compat. lra.
    - apply (Rmult_lt_reg_r (p FB + 1)); [ lra | ].
      unfold Rdiv. rewrite Rmult_assoc, Rinv_l by lra. lra. }
  assert (RW : 0 <= f_W (p FW) <= 1) by (unfold f_W; lra).
  assert (RG : 0 <= f_G (p FG) <= 1) by (unfold f_G; lra).
  assert (RX : 0 < f_X (p FX) < 1).
  { unfold f_X. lits. split; [ apply exp_pos | apply exp_neg_lt_1; lra ]. }
  split. { rewrite f_T_exact, clamp_inert. reflexivity. }
  split. { apply f_P_exact. lra. }
  split. { apply f_B_exact. lra. }
  repeat (split; [ tauto | ]).
  unfold product. lits.
  repeat match goal with
  | |- 0 <= _ * _ <= 1 => apply unit_interval_mult
  end; lra.
Qed.

Lemma factor_ranges_exact_witness :
  let p := @earth R Exact in
  exists fT fP fB,
    f_T (p FT) = Return fT /\ f_P (p FP) = Return fP /\
    f_B (p FB) = Return fB /\
    0 < fT <= 1 /\ 0 < fP < 1 /\ 0 <= f_W (p FW) <= 1 /\
    0 <= fB < 1 /\ 0 <= f_G (p FG) <= 1 /\ 0 < f_X (p FX) < 1 /\
    0 <= product fT fP (f_W (p FW)) fB (f_G (p FG)) (f_X (p FX)) <= 1.
Proof.
  intros p. apply (factor_ranges_exact p).
  apply first_violation_None. exact earth_valid_exact.
Defined.

(** The temperature factor depends on the distance of T to 288 K only and
    falls as that distance grows: it is the same at 288 + d and 288 - d, and
    a temperature further from 288 K gets a strictly smaller factor. *)
Theorem temperature_factor_decreasing (T1 T2 : R) :
  Rabs (T1 - 288) < Rabs (T2 - 288) ->
  exists a b,
    f_T T1 = Return a /\ f_T T2 = Return b /\ b < a /\
    f_T (288 - (T2 - 288)) = Return b.
Proof.
  intros Hd.
  exists (exp (temperature_exponent T1)), (exp (temperature_exponent T2)).
  split. { rewrite f_T_exact, clamp_inert. reflexivity. }
  split. { rewrite f_T_exact, clamp_inert. reflexivity. }
  split.
  - apply exp_increasing. unfold temperature_exponent. lra.
  - rewrite f_T_exact, clamp_inert. do 2 f_equal.
    unfold temperature_exponent.
    replace (288 - (T2 - 288) - 288) with (- (T2 - 288)) by ring.
    rewrite Rabs_Ropp. reflexivity.
Qed.

Lemma temperature_factor_decreasing_witness :
  exists a b,
    f_T 288 = Return a /\ f_T 300 = Return b /\ b < a /\
    f_T (288 - (300 - 288)) = Return b.
Proof.
  apply (temperature_factor_decreasing 288 300).
  replace (288 - 288) with 0 by ring. rewrite Rabs_R0.
  replace (300 - 288) with 12 by ring. rewrite Rabs_pos_eq; lra.
Defined.

(** The pressure factor P / (1 + P) and the magnetic factor B / (B + 1) grow
    strictly with their input, on the non-negative numbers. *)
Theorem saturating_factors_increasing (x y : R) :
  0 <= x < y ->
  exists a b,
    f_P x = Return a /\ f_P y = Return b /\
    f_B x = Return a /\ f_B y = Return b /\ a < b.
Proof.
  intros [Hx Hxy].
  exists (x / (1 + x)), (y / (1 + y)).
  split. { apply f_P_exact. lra. }
  split. { apply f_P_exact. lra. }
  split. { rewrite f_B_exact by lra. do 2 f_equal. lra. }
  split. { rewrite f_B_exact by lra. do 2 f_equal. lra. }
  apply (Rmult_lt_reg_r ((1 + x) * (1 + y))).
  { apply Rmult_lt_0_compat; lra. }
  replace (x / (1 + x) * ((1 + x) * (1 + y))) with (x * (1 + y))
    by (field; lra).
  replace (y / (1 + y) * ((1 + x) * (1 + y))) with (y * (1 + x))
    by (field; lra).
  lra.
Qed.

Lemma saturating_factors_increasing_witness :
  exists a b,
    f_P 1 = Return a /\ f_P 2 = Return b /\
    f_B 1 = Return a /\ f_B 2 = Return b /\ a < b.
Proof.
  apply (saturating_factors_increasing 1 2). lra.
Defined.

End ExactFactors.

(** ** More of Python floats, whatever [math.exp] returns *)

Section FloatOutcomes.

Local Open Scope float_scope.

Variable libm : float -> float.

Local Instance Floats : Scalar float := Binary64With libm.

Implicit Type p : @profile float.

(** A float that is a number: neither NaN nor an infinity. *)
Definition is_number (x : float) : bool :=
  match Prim2SF x with
  | S754_zero _ | S754_finite _ _ _ => true
  | S754_infinity _ | S754_nan => false
  end.

Lemma between_is_number (a b x : float) :
  is_number a = true -> is_number b = true ->
  (a <=? x) && (x <=? b) = true -> is_number x = true.
Proof.
  unfold is_number. rewrite !FloatAxioms.leb_spec.
  destruct (Prim2SF x) as [ s | s | | s m e ]; try reflexivity;
    destruct (Prim2SF a) as [ sa | sa | | sa ma ea ]; try discriminate;
    destruct (Prim2SF b) as [ sb | sb | | sb mb eb ]; try discriminate;
    intros _ _ H; try (destruct s; discriminate H);
    try (destruct sa; discriminate H).
Qed.

Lemma equal_is_number (c x : float) :
  is_number c = true -> (x =? c) = true -> is_number x = true.
Proof.
  unfold is_number. rewrite FloatAxioms.eqb_spec.
  destruct (Prim2SF x) as [ s | s | | s m e ]; try reflexivity;
    destruct (Prim2SF c) as [ sc | sc | | sc mc ec ]; try discriminate;
    intros _ H; try (destruct s; discriminate H); try discriminate H.
Qed.

Lemma ltb_leb (x y : float) : (x <? y) = true -> (x <=? y) = true.
Proof.
  rewrite FloatAxioms.ltb_spec, FloatAxioms.leb_spec.
  unfold SFltb, SFleb.
  destruct (SFcompare (Prim2SF x) (Prim2SF y)) as [ [ | | ] | ]; congruence.
Qed.

(** A field that passes its test holds a number. *)
Lemma validated_field_is_number p (f : field) :
  in_domain p f = true -> is_number (p f) = true.
Proof.
  destruct f;
    cbn [in_domain member existsb num_le num_eq lit Floats Binary64With];
    try (apply between_is_number; reflexivity).
  rewrite orb_false_r. intros H. apply orb_true_iff in H.
  destruct H as [H | H]; revert H; apply equal_is_number; reflexivity.
Qed.

(** NaN and the infinities never get past validation: when any field holds
    one of them the call raises a [ValueError], that of this field or of a
    field before it, and no report is returned. *)
Theorem non_numbers_are_refused p (f : field) :
  is_number (p f) = false ->
  exists g, (position g <= position f)%nat /\
            score p = Raise (ValueError (message g)).
Proof.
  intros Hf.
  assert (Df : in_domain p f = false).
  { destruct (in_domain p f) eqn:E; [ | reflexivity ].
    apply validated_field_is_number in E. congruence. }
  rewrite score_cases. destruct (first_violation p) as [g | ] eqn:V.
  - exists g. split; [ | reflexivity ].
    apply first_violation_Some in V. destruct V as [_ Hlt].
    destruct (Nat.le_gt_cases (position g) (position f)) as [Hle | Hgt];
      [ exact Hle | ].
    rewrite (Hlt f Hgt) in Df. discriminate Df.
  - rewrite (proj1 (first_violation_None p) V f) in Df. discriminate Df.
Qed.

(** The clamp of line 60 holds on floats whatever [math.exp] returns, NaN and
    infinities included: for every T the temperature factor is computed
    without error and lies between 0 and 1. *)
Theorem temperature_factor_clamped (T : float) :
  exists v, f_T T = Return v /\ (0 <=? v) = true /\ (v <=? 1) = true.
Proof.
  unfold f_T, truediv, py_min, py_max.
  cbn [num_eq num_lt num_le num_add num_sub num_mul num_quot num_neg num_abs
       math_exp lit Floats Binary64With].
  change (F64.of_Q 288 =? F64.of_Q 0) with false. cbn [bind].
  change (F64.of_Q 0) with 0. change (F64.of_Q 1) with 1.
  set (e := libm _).
  eexists. split; [ reflexivity | ].
  destruct (0 <? e) eqn:H0.
  - destruct (e <? 1) eqn:H1.
    + split; apply ltb_leb; assumption.
    + split; reflexivity.
  - change (0 <? 1) with true. cbv iota. split; reflexivity.
Qed.

End FloatOutcomes.

(** An infinite mass is refused with the error of M (D is valid). *)
Lemma non_numbers_are_refused_witness :
  exists g, (position g <= position FM)%nat /\
            @score float Binary64
              (with_field (@earth float Binary64) FM infinity)
              = Raise (ValueError (message g)).
Proof.
  apply (non_numbers_are_refused F64.exp
           (with_field (@earth float Binary64) FM infinity) FM).
  vm_compute. reflexivity.
Defined.

Section FloatUnderflow.

Local Open Scope float_scope.

Variable libm : float -> float.

Local Instance FloatsOf : Scalar float := Binary64With libm.

Implicit Type p : @profile float.

(** Zero times a number is zero. *)
Lemma zero_times_number (a y : float) :
  (a =? 0) = true -> is_number y = true -> (a * y =? 0) = true.
Proof.
  unfold is_number.
  rewrite !FloatAxioms.eqb_spec, FloatAxioms.mul_spec.
  change (Prim2SF 0) with (S754_zero false).
  destruct (Prim2SF a) as [ sa | sa | | sa ma ea ]; intros Ha;
    try (destruct sa; discriminate Ha); try discriminate Ha.
  destruct (Prim2SF y) as [ sy | sy | | sy my ey ]; intros Hy;
    try discriminate Hy; reflexivity.
Qed.

(** Underflow ends in [ZeroDivisionError].  On a validated profile, when the
    product of the first five factors, multiplied left to right as line 68
    does, is zero (one factor is zero, or the product underflowed) and
    [math.exp(-X)] is a number, the call raises [ZeroDivisionError]. *)
Theorem zero_partial_product_raises p (fT fP fB : float) :
  first_violation p = None ->
  f_T (p FT) = Return fT ->
  f_P (p FP) = Return fP ->
  f_B (p FB) = Return fB ->
  (fT * fP * p FW * fB * p FG =? 0) = true ->
  is_number (libm (- p FX)) = true ->
  score p = Raise ZeroDivisionError.
Proof.
  intros V HT HP HB Hz Hx.
  rewrite score_cases, V. unfold scoring. rewrite HT, HP, HB. cbn [bind].
  unfold truediv, product, f_W, f_G, f_X.
  cbn [num_eq num_mul num_neg math_exp lit FloatsOf Binary64With].
  change (F64.of_Q 0) with 0.
  rewrite (zero_times_number _ _ Hz Hx). reflexivity.
Qed.

End FloatUnderflow.

(** B = G = 1e-300: the five-factor product underflows to zero. *)
Lemma zero_partial_product_raises_witness :
  @score float Binary64 vanishing_product = Raise ZeroDivisionError.
Proof.
  apply (zero_partial_product_raises F64.exp vanishing_product
           1%float 0.5%float 1e-300%float);
    vm_compute; reflexivity.
Defined.
